(** * Linear regression price channel (lib/ml/linear-regression.ts)

    A shallow embedding of the regression-channel engine and the proofs of
    its specification.

    The TypeScript source computes on [number].  The embedding is written
    over an interface [Number] of the arithmetic the source uses, and read
    at [binary64], IEEE 754 double precision as given by [SpecFloat], which
    is what a JavaScript engine runs: rounding, overflow, signed zeros,
    infinities and NaN are those of the program. *)

From Stdlib Require Import String Ascii.
From Stdlib Require Import NArith ZArith List Bool Lia.
From Stdlib Require Import SpecFloat DecimalString DecimalN DecimalFacts.
Import ListNotations.

(** ** Exceptions

    The source raises [new Error(msg)]; the outcome of a call is a value or
    the message of the error thrown. *)

Inductive result (A : Type) : Type :=
| Ok (a : A)
| Throw (msg : string).

Arguments Ok {A} a.
Arguments Throw {A} msg.

Definition bind {A B : Type} (r : result A) (k : A -> result B) : result B :=
  match r with
  | Ok a => k a
  | Throw msg => Throw msg
  end.

Notation "'let*' x ':=' r 'in' k" := (bind r (fun x => k))
  (at level 10, x name, r at level 100, k at level 200).

(** The two messages of the source; the specification calls the first
    [InvalidInput] and the second [InsufficientData]. *)
Definition InvalidInput : string :=
  "Invalid input: arrays must have same non-zero length".
Definition InsufficientData : string :=
  "Need at least 2 price points for regression analysis".

(** ** The arithmetic of [number] *)

Class Number (T : Type) : Type := {
  of_Z : Z -> T;              (* an integer literal, an array length or index *)
  lit_0_7 : T;                (* the literal 0.7 *)
  NaN : T;                    (* what arithmetic on an absent element gives *)
  add : T -> T -> T;
  sub : T -> T -> T;
  mul : T -> T -> T;
  div : T -> T -> T;
  neg : T -> T;
  Math_pow : T -> nat -> T;   (* Math.pow with a literal natural exponent *)
  Math_sqrt : T -> T;
  Math_abs : T -> T;
  Math_min : T -> T -> T;
  leb : T -> T -> bool;       (* <= *)
  geb : T -> T -> bool;       (* >= *)
  eqb : T -> T -> bool        (* === *)
}.

Declare Scope num_scope.
Delimit Scope num_scope with num.
Infix "+" := add : num_scope.
Infix "-" := sub : num_scope.
Infix "*" := mul : num_scope.
Infix "/" := div : num_scope.
Notation "- x" := (neg x) : num_scope.
Infix "<=?" := leb : num_scope.
Infix ">=?" := geb : num_scope.
Infix "===" := eqb (at level 70) : num_scope.

Inductive Signal : Type := BUY | SELL | HOLD.

Section Engine.
Context {T : Type} `{Number T}.
Local Open Scope num_scope.

Definition of_nat (n : nat) : T := of_Z (Z.of_nat n).

(** [a[i]] on an array of numbers. *)
Definition get (a : list T) (i : nat) : T := nth i a NaN.

Record RegressionResult : Type := {
  slope : T;
  intercept : T;
  rSquared : T;
  predictions : list T
}.

Record RegressionChannelResult : Type := {
  regression : RegressionResult;
  upperBand : list T;
  lowerBand : list T;
  middleLine : list T;
  standardDeviation : T;
  currentPrice : T;
  predictedPrice : T;
  signal : Signal;
  signalStrength : T;
  distanceFromUpper : T;
  distanceFromLower : T;
  channelWidth : T
}.

(** *** calculateLinearRegression *)

(** The five accumulators of the first loop. *)
Record Sums : Type := {
  sumX : T; sumY : T; sumXY : T; sumX2 : T; sumY2 : T
}.

Definition sums0 : Sums :=
  {| sumX := of_Z 0; sumY := of_Z 0; sumXY := of_Z 0;
     sumX2 := of_Z 0; sumY2 := of_Z 0 |}.

(** One iteration of [for (let i = 0; i < n; i++)] in the first loop. *)
Definition sums_step (xValues yValues : list T) (s : Sums) (i : nat) : Sums :=
  {| sumX := sumX s + get xValues i;
     sumY := sumY s + get yValues i;
     sumXY := sumXY s + get xValues i * get yValues i;
     sumX2 := sumX2 s + get xValues i * get xValues i;
     sumY2 := sumY2 s + get yValues i * get yValues i |}.

Definition sums_loop (xValues yValues : list T) (n : nat) : Sums :=
  fold_left (sums_step xValues yValues) (seq 0 n) sums0.

(** One iteration of the second loop: the pair (ssTotal, ssResidual). *)
Definition ss_step (yValues predictions : list T) (meanY : T)
    (s : T * T) (i : nat) : T * T :=
  (fst s + Math_pow (get yValues i - meanY) 2,
   snd s + Math_pow (get yValues i - get predictions i) 2).

Definition ss_loop (yValues predictions : list T) (meanY : T) (n : nat) : T * T :=
  fold_left (ss_step yValues predictions meanY) (seq 0 n) (of_Z 0, of_Z 0).

Definition calculateLinearRegression (xValues yValues : list T)
    : result RegressionResult :=
  let n := length xValues in
  if (n =? 0)%nat || negb (n =? length yValues)%nat then Throw InvalidInput
  else
    let s := sums_loop xValues yValues n in
    let slope :=
      (of_nat n * sumXY s - sumX s * sumY s) /
      (of_nat n * sumX2 s - sumX s * sumX s) in
    let intercept := (sumY s - slope * sumX s) / of_nat n in
    let predictions := map (fun x => slope * x + intercept) xValues in
    let meanY := sumY s / of_nat n in
    let '(ssTotal, ssResidual) := ss_loop yValues predictions meanY n in
    let rSquared :=
      if ssTotal === of_Z 0 then of_Z 0 else of_Z 1 - ssResidual / ssTotal in
    Ok {| slope := slope; intercept := intercept;
          rSquared := rSquared; predictions := predictions |}.

(** *** calculateStandardDeviation *)

Definition sq_diff_step (actualValues predictedValues : list T)
    (sumSquaredDifferences : T) (i : nat) : T :=
  let difference := get actualValues i - get predictedValues i in
  sumSquaredDifferences + difference * difference.

Definition sq_diff_loop (actualValues predictedValues : list T) (n : nat) : T :=
  fold_left (sq_diff_step actualValues predictedValues) (seq 0 n) (of_Z 0).

Definition calculateStandardDeviation (actualValues predictedValues : list T)
    : result T :=
  let n := length actualValues in
  if (n =? 0)%nat || negb (n =? length predictedValues)%nat
  then Throw InvalidInput
  else
    let sumSquaredDifferences := sq_diff_loop actualValues predictedValues n in
    let variance := sumSquaredDifferences / of_nat n in
    Ok (Math_sqrt variance).

(** *** calculateChannelBands *)

Definition calculateChannelBands (predictions : list T)
    (standardDeviation multiplier : T) : list T * list T :=
  (map (fun pred => pred + multiplier * standardDeviation) predictions,
   map (fun pred => pred - multiplier * standardDeviation) predictions).

(** *** generateSignal *)

Definition generateSignal
    (currentPrice predictedPrice upperBandValue lowerBandValue : T)
    : Signal * T :=
  let channelWidth := upperBandValue - lowerBandValue in
  let distanceFromMiddle := currentPrice - predictedPrice in
  let normalizedPosition := distanceFromMiddle / (channelWidth / of_Z 2) in
  let strength :=
    Math_min (of_Z 100) (Math_abs normalizedPosition * of_Z 100) in
  if normalizedPosition <=? - lit_0_7 then
    (BUY, Math_min (of_Z 100) strength)
  else if normalizedPosition >=? lit_0_7 then
    (SELL, Math_min (of_Z 100) strength)
  else
    (HOLD, of_Z 100 - strength).

(** *** calculateRegressionChannel *)

(** [Array.from({ length: n }, (_, i) => i)] *)
Definition indices (n : nat) : list T := map of_nat (seq 0 n).

Definition calculateRegressionChannel (prices : list T) (stdDevMultiplier : T)
    : result RegressionChannelResult :=
  if (length prices <? 2)%nat then Throw InsufficientData
  else
    let xValues := indices (length prices) in
    let* regression := calculateLinearRegression xValues prices in
    let* standardDeviation :=
      calculateStandardDeviation prices (predictions regression) in
    let '(upperBand, lowerBand) :=
      calculateChannelBands (predictions regression)
                            standardDeviation stdDevMultiplier in
    let lastIndex := (length prices - 1)%nat in
    let currentPrice := get prices lastIndex in
    let predictedPrice := get (predictions regression) lastIndex in
    let currentUpperBand := get upperBand lastIndex in
    let currentLowerBand := get lowerBand lastIndex in
    let '(signal, strength) :=
      generateSignal currentPrice predictedPrice
                     currentUpperBand currentLowerBand in
    let channelWidth := currentUpperBand - currentLowerBand in
    let distanceFromUpper :=
      ((currentUpperBand - currentPrice) / channelWidth) * of_Z 100 in
    let distanceFromLower :=
      ((currentPrice - currentLowerBand) / channelWidth) * of_Z 100 in
    Ok {| regression := regression;
          upperBand := upperBand;
          lowerBand := lowerBand;
          middleLine := predictions regression;
          standardDeviation := standardDeviation;
          currentPrice := currentPrice;
          predictedPrice := predictedPrice;
          signal := signal;
          signalStrength := strength;
          distanceFromUpper := distanceFromUpper;
          distanceFromLower := distanceFromLower;
          channelWidth := channelWidth |}.

(** The default value of the [multiplier] and [stdDevMultiplier]
    parameters. *)
Definition default_multiplier : T := of_Z 2.

End Engine.

Arguments RegressionResult T : clear implicits.
Arguments RegressionChannelResult T : clear implicits.
Arguments Sums T : clear implicits.

(** *** formatRegressionEquation *)

(** [Number.prototype.toFixed], the one method of [number] the source
    calls. *)
Class NumberToFixed (T : Type) : Type := {
  toFixed : T -> nat -> string
}.

Section Format.
Context {T : Type} `{Number T} `{NumberToFixed T}.
Local Open Scope num_scope.
Local Open Scope string_scope.

Definition formatRegressionEquation (slope intercept : T) : string :=
  let slopeSign := if slope >=? of_Z 0 then "+" else "" in
  let interceptSign := if intercept >=? of_Z 0 then "+" else "" in
  "y = " ++ slopeSign ++ toFixed slope 4 ++ "x " ++
  interceptSign ++ " " ++ toFixed intercept 2.

End Format.

(** ** The IEEE 754 binary64 model *)

Module Float64.

Definition prec : Z := 53.
Definition emax : Z := 1024.
Definition binary64 : Type := spec_float.

Definition F_of_Z (z : Z) : binary64 := binary_normalize prec emax z 0 false.

Definition F10 : binary64 := F_of_Z 10.

(** The double nearest to 0.7, 0x3FE6666666666666. *)
Definition F_0_7 : binary64 := S754_finite false 6305039478318694 (-53).

(** Repeated multiplication; [Math.pow(x, 2)] is [x * x]. *)
Fixpoint F_pow (x : binary64) (n : nat) : binary64 :=
  match n with
  | O => F_of_Z 1
  | S k => SFmul prec emax x (F_pow x k)
  end.

(** [Math.min]: NaN if either argument is, and -0 below +0. *)
Definition F_min (x y : binary64) : binary64 :=
  match x, y with
  | S754_nan, _ | _, S754_nan => S754_nan
  | _, _ =>
    if SFltb x y then x
    else if SFltb y x then y
    else match x with S754_zero true => x | _ => y end
  end.

#[export] Instance Number_binary64 : Number binary64 := {|
  of_Z := F_of_Z;
  lit_0_7 := F_0_7;
  NaN := S754_nan;
  add := SFadd prec emax;
  sub := SFsub prec emax;
  mul := SFmul prec emax;
  div := SFdiv prec emax;
  neg := SFopp;
  Math_pow := F_pow;
  Math_sqrt := SFsqrt prec emax;
  Math_abs := SFabs;
  Math_min := F_min;
  leb := SFleb;
  geb := fun x y => SFleb y x;
  eqb := SFeqb
|}.

(** *** Number.prototype.toFixed (ECMA-262, 21.1.3.3)

    The decimal digits of a natural number, ["0"] for zero. *)
Definition decimal_digits (n : N) : list ascii :=
  list_ascii_of_string (NilZero.string_of_uint (N.to_uint n)).

(** "Let n be an integer for which n / 10^f - x is as close to zero as
    possible.  If there are two such n, pick the larger n", for
    [x = m * 2^e]. *)
Definition nearest_scaled (m : positive) (e : Z) (f : nat) : N :=
  let scaled := (Zpos m * 10 ^ Z.of_nat f)%Z in
  match e with
  | Zneg k => Z.to_N ((2 * scaled + 2 ^ Zpos k) / 2 ^ (Zpos k + 1))
  | _ => Z.to_N (scaled * 2 ^ e)
  end.

(** [m * 2^e >= 10^21] *)
Definition at_least_1e21 (m : positive) (e : Z) : bool :=
  match e with
  | Zneg k => (10 ^ 21 * 2 ^ Zpos k <=? Zpos m)%Z
  | _ => (10 ^ 21 <=? Zpos m * 2 ^ e)%Z
  end.

(** Steps 9 and 10: the digits of [n] with a point before the last [f]. *)
Definition place_point (n : N) (f : nat) : list ascii :=
  let m := decimal_digits n in
  match f with
  | O => m
  | _ =>
    let k := length m in
    let m := if (k <=? f)%nat then repeat "0"%char (f + 1 - k) ++ m else m in
    let k := length m in
    firstn (k - f) m ++ "."%char :: skipn (k - f) m
  end.

(** [Number::toString] (ECMA-262, 6.1.6.1.20) for an integer of 10^21 or
    more: the shortest decimal [s * 10^(n-k)], [s] of [k] digits, that
    reads back as the same double, the closest one if several do, in
    exponential notation. *)
Definition reads_back (x : binary64) (v : Z) : bool := SFeqb (F_of_Z v) x.

Fixpoint shortest_decimal (x : binary64) (X : Z) (nd : nat) (fuel k : nat)
    : Z * nat :=
  match fuel with
  | O => (X, nd)
  | S fuel' =>
    let scale := (10 ^ Z.of_nat (nd - k))%Z in
    let lo := (X / scale)%Z in
    let hi := (lo + 1)%Z in
    let carry s := if (s =? 10 ^ Z.of_nat k)%Z
                   then ((10 ^ Z.of_nat (k - 1))%Z, S nd) else (s, nd) in
    match reads_back x (lo * scale), reads_back x (hi * scale) with
    | true, true =>
      let below := (X - lo * scale)%Z in
      let above := (hi * scale - X)%Z in
      if (below <? above)%Z then (lo, nd)
      else if (above <? below)%Z then carry hi
      else if Z.even lo then (lo, nd) else carry hi
    | true, false => (lo, nd)
    | false, true => carry hi
    | false, false => shortest_decimal x X nd fuel' (S k)
    end
  end.

Definition exponential_notation (s : Z) (n : nat) : string :=
  let digits := decimal_digits (Z.to_N s) in
  let exponent := decimal_digits (N.of_nat (n - 1)) in
  string_of_list_ascii
    (match digits with
     | [] => []
     | [d] => d :: "e"%char :: "+"%char :: exponent
     | d :: rest => d :: "."%char :: rest ++ "e"%char :: "+"%char :: exponent
     end).

Definition Number_toString_large (m : positive) (e : Z) : string :=
  let X := match e with
           | Zneg k => (Zpos m / 2 ^ Zpos k)%Z
           | _ => (Zpos m * 2 ^ e)%Z
           end in
  let nd := length (decimal_digits (Z.to_N X)) in
  let '(s, n) := shortest_decimal (S754_finite false m e) X nd 17 1 in
  exponential_notation s n.

Definition F_toFixed (x : binary64) (fractionDigits : nat) : string :=
  match x with
  | S754_nan => "NaN"
  | S754_infinity false => "Infinity"
  | S754_infinity true => "-Infinity"
  | S754_zero _ => string_of_list_ascii (place_point 0 fractionDigits)
  | S754_finite s m e =>
    ((if s then "-" else "") ++
     (if at_least_1e21 m e then Number_toString_large m e
      else string_of_list_ascii
             (place_point (nearest_scaled m e fractionDigits) fractionDigits)))%string
  end.

#[export] Instance ToFixed_binary64 : NumberToFixed binary64 :=
  {| toFixed := F_toFixed |}.

(** The equation as the specification words it,
    ["y = {+/-}{slope:.4f}x {+/-}{intercept:.2f}"]: each number is its
    sign, ['+'] or ['-'], immediately followed by its magnitude with the
    given number of decimals. *)
Definition signed_fixed (x : binary64) (decimals : nat) : string :=
  ((if SFltb x (F_of_Z 0) then "-" else "+") ++ F_toFixed (SFabs x) decimals)%string.

Definition spec_equation (slope intercept : binary64) : string :=
  ("y = " ++ signed_fixed slope 4 ++ "x " ++ signed_fixed intercept 2)%string.

(** What [toFixed] writes after the sign of a number in positional
    notation. *)
Definition magnitude_digits (x : binary64) (f : nat) : list ascii :=
  match x with
  | S754_finite _ m e => place_point (nearest_scaled m e f) f
  | _ => place_point 0 f
  end.

Definition is_digit (c : ascii) : Prop :=
  (48 <= nat_of_ascii c <= 57)%nat.

(** A finite double of magnitude below 10^21, which [toFixed] writes in
    positional notation. *)
Definition positional (x : binary64) : Prop :=
  match x with
  | S754_zero _ => True
  | S754_finite _ m e => at_least_1e21 m e = false
  | _ => False
  end.

(** The number a list of decimal digits writes. *)
Definition digit_value (c : ascii) : N := N.of_nat (nat_of_ascii c - 48).

Definition digits_value (digits : list ascii) : N :=
  fold_left (fun acc c => (10 * acc + digit_value c)%N) digits 0%N.

(** [n] is the integer nearest to [|x| * 10^f], and the larger one when
    two integers are as near. *)
Definition nearest_to_scaled (x : binary64) (f : nat) (n : Z) : Prop :=
  match x with
  | S754_finite _ m (Zneg k) =>
    (- 2 ^ Zpos k < 2 * (n * 2 ^ Zpos k - Zpos m * 10 ^ Z.of_nat f) <= 2 ^ Zpos k)%Z
  | S754_finite _ m e => n = (Zpos m * 2 ^ e * 10 ^ Z.of_nat f)%Z
  | _ => n = 0%Z
  end.

(** [text] is the magnitude of [x] to [f] decimals: an integer part
    without needless zeros, a point and [f] decimals, which together are
    the digits of the integer nearest to [|x| * 10^f]. *)
Definition fixed_point (x : binary64) (f : nat) (text : list ascii) : Prop :=
  exists int_part decimals : list ascii,
    text = int_part ++ "."%char :: decimals /\
    Forall is_digit int_part /\ Forall is_digit decimals /\
    length decimals = f /\
    (int_part = ["0"%char]
     \/ exists c rest, int_part = c :: rest /\ c <> "0"%char) /\
    nearest_to_scaled x f
      (Z.of_N (digits_value int_part * 10 ^ N.of_nat f + digits_value decimals)).


(** *** The stages of rounding *)






(** [a] is zero, or [a] and [b] are positive and [a] comes first by
    exponent and then by mantissa. *)
Definition below (a b : Z * Z) : Prop :=
  fst a = 0%Z \/
  ((0 < fst a)%Z /\ (0 < fst b)%Z /\
   ((snd a < snd b)%Z \/ (snd a = snd b /\ (fst a <= fst b)%Z))).

End Float64.

(** ** Vocabulary of the further properties *)

(** A finite double, zero included. *)
Definition finite (x : Float64.binary64) : Prop :=
  match x with
  | S754_zero _ | S754_finite _ _ _ => True
  | _ => False
  end.

(** The sums of the specification, [Σ], taken in index order from 0 as the
    loops of the source accumulate them. *)
Section Sums.
Context {T : Type} `{Number T}.
Local Open Scope num_scope.

Definition Sum (terms : list T) : T := fold_left add terms (of_Z 0).

(** [x[i] * y[i]] for the indices the two arrays share. *)
Definition products (xs ys : list T) : list T :=
  map (fun xy => fst xy * snd xy) (combine xs ys).

(** [(a[i] - p[i]) * (a[i] - p[i])] *)
Definition squared_differences (actual predicted : list T) : list T :=
  map (fun ap => (fst ap - snd ap) * (fst ap - snd ap)) (combine actual predicted).

End Sums.

(** * Properties *)

(** ** Loops over an index range *)

Section Loops.
Context {St : Type}.

(** A loop over [k+1 .. k+n] whose body only looks one index back is the
    loop over [k .. k+n-1] of the shifted body. *)
Lemma fold_left_seq_S (f g : St -> nat -> St) :
  (forall s i, f s (S i) = g s i) ->
  forall n k s, fold_left f (seq (S k) n) s = fold_left g (seq k n) s.
Proof.
  intros Hfg n; induction n as [|n IH]; intros k s; simpl; [reflexivity|].
  rewrite Hfg; apply IH.
Qed.

End Loops.

(** ** Error handling, for any arithmetic *)

Section Errors.
Context {T : Type} `{Number T}.
Local Open Scope num_scope.

Lemma InvalidInput_neq_InsufficientData : InvalidInput <> InsufficientData.
Proof. discriminate. Qed.

Lemma indices_length (n : nat) : length (indices n) = n.
Proof. unfold indices; rewrite length_map, length_seq; reflexivity. Qed.

Lemma indices_get (n i : nat) : (i < n)%nat -> get (indices n) i = of_nat i.
Proof.
  intros Hi; unfold get, indices.
  rewrite nth_indep with (d' := of_nat 0) by (rewrite length_map, length_seq; exact Hi).
  rewrite (map_nth of_nat), seq_nth by exact Hi; reflexivity.
Qed.

(** The guard of [calculateLinearRegression] and of
    [calculateStandardDeviation]. *)
Lemma guard_false (A B : Type) (xs : list A) (ys : list B) :
  xs <> [] -> length xs = length ys ->
  (length xs =? 0)%nat || negb (length xs =? length ys)%nat = false.
Proof.
  intros Hne Hlen; rewrite <- Hlen, Nat.eqb_refl; simpl.
  destruct xs; [congruence | reflexivity].
Qed.

Lemma guard_true (A B : Type) (xs : list A) (ys : list B) :
  xs = [] \/ length xs <> length ys ->
  (length xs =? 0)%nat || negb (length xs =? length ys)%nat = true.
Proof.
  intros [-> | Hlen]; [reflexivity|].
  apply Nat.eqb_neq in Hlen; rewrite Hlen; apply orb_true_r.
Qed.

Lemma calculateLinearRegression_throws (xValues yValues : list T) :
  xValues = [] \/ length xValues <> length yValues ->
  calculateLinearRegression xValues yValues = Throw InvalidInput.
Proof.
  intros Hbad; unfold calculateLinearRegression.
  rewrite guard_true by exact Hbad; reflexivity.
Qed.

(** On well-formed input the fit returns, and its predictions are the
    fitted line at the abscissas. *)
Lemma calculateLinearRegression_returns (xValues yValues : list T) :
  xValues <> [] -> length xValues = length yValues ->
  exists r, calculateLinearRegression xValues yValues = Ok r /\
            predictions r = map (fun x => slope r * x + intercept r) xValues.
Proof.
  intros Hne Hlen; unfold calculateLinearRegression.
  rewrite guard_false by assumption.
  destruct (ss_loop _ _ _ _) as [ssTotal ssResidual].
  eexists; split; reflexivity.
Qed.

Lemma calculateStandardDeviation_returns (actualValues predictedValues : list T) :
  actualValues <> [] -> length actualValues = length predictedValues ->
  calculateStandardDeviation actualValues predictedValues =
  Ok (Math_sqrt (sq_diff_loop actualValues predictedValues (length actualValues)
                 / of_nat (length actualValues))).
Proof.
  intros Hne Hlen; unfold calculateStandardDeviation.
  rewrite guard_false by assumption; reflexivity.
Qed.

Lemma calculateStandardDeviation_throws (actualValues predictedValues : list T) :
  actualValues = [] \/ length actualValues <> length predictedValues ->
  calculateStandardDeviation actualValues predictedValues = Throw InvalidInput.
Proof.
  intros Hbad; unfold calculateStandardDeviation.
  rewrite guard_true by exact Hbad; reflexivity.
Qed.

Lemma long_enough_nonempty (A : Type) (l : list A) : (2 <= length l)%nat -> l <> [].
Proof. destruct l; simpl; [lia | discriminate]. Qed.

(** What [calculateRegressionChannel] returns on two prices or more, spelt
    out stage by stage. *)
Lemma calculateRegressionChannel_returns (prices : list T) (stdDevMultiplier : T) :
  (2 <= length prices)%nat ->
  exists reg sd,
    calculateLinearRegression (indices (length prices)) prices = Ok reg /\
    calculateStandardDeviation prices (predictions reg) = Ok sd /\
    let bands := calculateChannelBands (predictions reg) sd stdDevMultiplier in
    let lastIndex := (length prices - 1)%nat in
    let sig := generateSignal (get prices lastIndex)
                              (get (predictions reg) lastIndex)
                              (get (fst bands) lastIndex)
                              (get (snd bands) lastIndex) in
    let width := get (fst bands) lastIndex - get (snd bands) lastIndex in
    calculateRegressionChannel prices stdDevMultiplier =
    Ok {| regression := reg;
          upperBand := fst bands;
          lowerBand := snd bands;
          middleLine := predictions reg;
          standardDeviation := sd;
          currentPrice := get prices lastIndex;
          predictedPrice := get (predictions reg) lastIndex;
          signal := fst sig;
          signalStrength := snd sig;
          distanceFromUpper :=
            (get (fst bands) lastIndex - get prices lastIndex) / width * of_Z 100;
          distanceFromLower :=
            (get prices lastIndex - get (snd bands) lastIndex) / width * of_Z 100;
          channelWidth := width |}.
Proof.
  intros Hlen.
  assert (Hne : prices <> []) by (apply long_enough_nonempty; exact Hlen).
  destruct (calculateLinearRegression_returns (indices (length prices)) prices)
    as [reg [Hreg Hpred]].
  { intros E; apply (f_equal (@length T)) in E.
    rewrite indices_length in E; simpl in E; lia. }
  { apply indices_length. }
  assert (Hplen : length prices = length (predictions reg)).
  { rewrite Hpred, length_map, indices_length; reflexivity. }
  pose proof (calculateStandardDeviation_returns _ _ Hne Hplen) as Hsd.
  exists reg; eexists; split; [exact Hreg | split; [exact Hsd |]].
  cbv zeta; unfold calculateRegressionChannel.
  replace (length prices <? 2)%nat with false
    by (symmetry; apply Nat.ltb_ge; exact Hlen).
  rewrite Hreg; simpl bind; rewrite Hsd; simpl bind.
  unfold calculateChannelBands; simpl fst; simpl snd.
  destruct (generateSignal _ _ _ _) as [sg st]; reflexivity.
Qed.

(** C4.  [calculateRegressionChannel] throws, and then its
    insufficient-data error, exactly when it is given fewer than two
    prices; [calculateLinearRegression] throws, and then its invalid-input
    error, exactly when its two arrays differ in length or are empty; on
    all other inputs each returns a result. *)
Theorem error_handling :
  (forall (prices : list T) (stdDevMultiplier : T),
      (calculateRegressionChannel prices stdDevMultiplier = Throw InsufficientData
       <-> (length prices < 2)%nat) /\
      ((2 <= length prices)%nat ->
       exists r, calculateRegressionChannel prices stdDevMultiplier = Ok r)) /\
  (forall xValues yValues : list T,
      (calculateLinearRegression xValues yValues = Throw InvalidInput
       <-> (length xValues <> length yValues \/ length xValues = 0)%nat) /\
      (length xValues = length yValues -> length xValues <> 0%nat ->
       exists r, calculateLinearRegression xValues yValues = Ok r)).
Proof.
  split.
  - intros prices m.
    assert (Hok : (2 <= length prices)%nat ->
                  exists r, calculateRegressionChannel prices m = Ok r).
    { intros Hlen.
      destruct (calculateRegressionChannel_returns prices m Hlen)
        as [reg [sd [_ [_ Hres]]]].
      eexists; exact Hres. }
    split; [split|exact Hok].
    + intros Hthrow.
      destruct (Nat.lt_ge_cases (length prices) 2) as [Hlt|Hge]; [exact Hlt|].
      destruct (Hok Hge) as [r Hr]; congruence.
    + intros Hlt; unfold calculateRegressionChannel.
      apply Nat.ltb_lt in Hlt; rewrite Hlt; reflexivity.
  - intros xs ys.
    assert (Hok : length xs = length ys -> length xs <> 0%nat ->
                  exists r, calculateLinearRegression xs ys = Ok r).
    { intros Hlen Hne.
      destruct (calculateLinearRegression_returns xs ys)
        as [r [Hr _]]; [destruct xs; simpl in *; congruence | exact Hlen |].
      exists r; exact Hr. }
    split; [split|exact Hok].
    + intros Hthrow.
      destruct (Nat.eq_dec (length xs) (length ys)) as [Heq|Hneq];
        [|left; exact Hneq].
      destruct (Nat.eq_dec (length xs) 0) as [Hz|Hnz]; [right; exact Hz|].
      destruct (Hok Heq Hnz) as [r Hr]; congruence.
    + intros Hbad; apply calculateLinearRegression_throws.
      destruct Hbad as [Hneq|Hz]; [right; exact Hneq|].
      left; destruct xs; [reflexivity | discriminate].
Qed.

End Errors.

(** ** The engine on IEEE 754 doubles *)

Module Float64Facts.
Import Float64.

(** The literal 0.7 is the correctly rounded quotient of 7 by 10. *)
Lemma F_0_7_nearest : SFdiv prec emax (F_of_Z 7) (F_of_Z 10) = F_0_7.
Proof. vm_compute; reflexivity. Qed.

(** *** The worked examples, evaluated *)

Ltac evaluate :=
  eexists; split; [vm_compute; reflexivity | vm_compute; repeat split].

(** C2.  On the prices 10, 10, 10, 10, 10 with the default multiplier the
    analysis returns slope 0, intercept 10, rSquared 0, standard deviation
    0, both bands at 10 throughout and the signal HOLD, as the example
    says; but the channel has width 0, the normalized position is 0/0, and
    the strength returned with HOLD is NaN, not 100. *)
Theorem flat_prices_example :
  exists r,
    calculateRegressionChannel [F10; F10; F10; F10; F10] default_multiplier = Ok r /\
    slope (regression r) = F_of_Z 0 /\
    intercept (regression r) = F10 /\
    rSquared (regression r) = F_of_Z 0 /\
    standardDeviation r = F_of_Z 0 /\
    upperBand r = [F10; F10; F10; F10; F10] /\
    lowerBand r = [F10; F10; F10; F10; F10] /\
    signal r = HOLD /\
    channelWidth r = F_of_Z 0 /\
    div (sub (currentPrice r) (predictedPrice r))
        (div (sub (get (upperBand r) 4) (get (lowerBand r) 4)) (of_Z 2))
      = S754_nan /\
    signalStrength r = S754_nan /\
    eqb (signalStrength r) (F_of_Z 100) = false.
Proof. evaluate. Qed.

(** The second example of the specification, a perfect fit, has the same
    flat channel and the same NaN strength. *)
Lemma perfect_fit_example :
  exists r,
    calculateRegressionChannel (map F_of_Z [1; 2; 3; 4; 5]%Z) default_multiplier
      = Ok r /\
    slope (regression r) = F_of_Z 1 /\
    intercept (regression r) = F_of_Z 1 /\
    rSquared (regression r) = F_of_Z 1 /\
    standardDeviation r = F_of_Z 0 /\
    signal r = HOLD /\
    signalStrength r = S754_nan.
Proof. evaluate. Qed.

(** With a single point the divisor of the slope is 0: slope, intercept
    and prediction are NaN, and the prediction does not compare equal to
    [slope * 0 + intercept]. *)
Lemma single_point_fit_is_NaN :
  exists r,
    calculateLinearRegression (indices 1) [F_of_Z 5] = Ok r /\
    slope r = S754_nan /\ intercept r = S754_nan /\
    predictions r = [S754_nan] /\
    eqb (get (predictions r) 0)
        (add (mul (slope r) (of_nat 0)) (intercept r)) = false.
Proof. evaluate. Qed.

(** The flat fit of 3, 1, 1, 3 has [rSquared = 0] on doubles as it has on
    the reals. *)
Lemma flat_fit_binary64 :
  exists r,
    calculateLinearRegression (indices 4) (map F_of_Z [3; 1; 1; 3]%Z) = Ok r /\
    slope r = F_of_Z 0 /\ intercept r = F_of_Z 2 /\ rSquared r = F_of_Z 0.
Proof. evaluate. Qed.

(** *** formatRegressionEquation *)

(** For slope 1 and intercept 2 the source writes a space between the
    sign of the intercept and its digits, where the specification's format
    has none; with a negative intercept the sign slot is empty and two
    spaces precede the minus sign. *)
Lemma equation_has_space_after_sign :
  formatRegressionEquation (F_of_Z 1) (F_of_Z 2) = "y = +1.0000x + 2.00"%string /\
  spec_equation (F_of_Z 1) (F_of_Z 2) = "y = +1.0000x +2.00"%string /\
  formatRegressionEquation (F_of_Z 1) (F_of_Z 2)
    <> spec_equation (F_of_Z 1) (F_of_Z 2) /\
  formatRegressionEquation (F_of_Z (-1)) (F_of_Z (-2))
    = "y = -1.0000x  -2.00"%string.
Proof.
  repeat split; try (vm_compute; reflexivity).
  vm_compute; discriminate.
Qed.

(** The digits of a number. *)
Lemma string_of_uint_digits (u : Decimal.uint) :
  Forall is_digit (list_ascii_of_string (NilEmpty.string_of_uint u)).
Proof.
  induction u; simpl; [constructor | constructor; [vm_compute; lia | exact IHu] ..].
Qed.

Lemma decimal_digits_digits (n : N) : Forall is_digit (decimal_digits n).
Proof.
  unfold decimal_digits, NilZero.string_of_uint.
  destruct (N.to_uint n) as [|u|u|u|u|u|u|u|u|u|u];
    [|match goal with
      | |- Forall _ (list_ascii_of_string ?s) =>
        exact (string_of_uint_digits _)
      end ..].
  simpl; constructor; [vm_compute; lia | constructor].
Qed.

Lemma decimal_digits_nonempty (n : N) : (1 <= length (decimal_digits n))%nat.
Proof.
  unfold decimal_digits, NilZero.string_of_uint.
  destruct (N.to_uint n); simpl; lia.
Qed.

(** With [f > 0] decimals asked for, the digits are split by a point into
    a non-empty integer part and exactly [f] decimals. *)
Lemma place_point_shape (n : N) (f : nat) :
  (0 < f)%nat ->
  exists int_part decimals,
    place_point n f = int_part ++ "."%char :: decimals /\
    int_part <> [] /\ Forall is_digit int_part /\
    Forall is_digit decimals /\ length decimals = f.
Proof.
  intros Hf; unfold place_point.
  destruct f as [|f]; [lia|].
  pose proof (decimal_digits_digits n) as Hdig.
  pose proof (decimal_digits_nonempty n) as Hlen.
  set (m0 := decimal_digits n) in *.
  set (m := if (length m0 <=? S f)%nat
            then repeat "0"%char (S f + 1 - length m0) ++ m0 else m0).
  assert (Hm : Forall is_digit m /\ (S f < length m)%nat).
  { unfold m; destruct (length m0 <=? S f)%nat eqn:Hk.
    - apply Nat.leb_le in Hk; split.
      + apply Forall_app; split; [|exact Hdig].
        apply Forall_forall; intros c Hc; apply repeat_spec in Hc; subst c.
        vm_compute; lia.
      + rewrite length_app, repeat_length; lia.
    - apply Nat.leb_gt in Hk; split; [exact Hdig | exact Hk]. }
  destruct Hm as [Hmd Hml].
  exists (firstn (length m - S f) m), (skipn (length m - S f) m).
  rewrite <- (firstn_skipn (length m - S f) m) in Hmd.
  apply Forall_app in Hmd; destruct Hmd as [Hi Hd].
  repeat split; try assumption.
  - intros E; apply (f_equal (@length ascii)) in E.
    rewrite length_firstn in E; simpl in E; lia.
  - rewrite length_skipn; lia.
Qed.


Lemma toFixed_positional (x : binary64) (f : nat) :
  positional x ->
  geb x (of_Z 0) = negb (SFltb x (F_of_Z 0)) /\
  toFixed x f = ((if SFltb x (F_of_Z 0) then "-" else "")
                 ++ string_of_list_ascii (magnitude_digits x f))%string.
Proof.
  destruct x as [s | s | | s m e]; simpl; intros Hpos; try contradiction.
  - split; reflexivity.
  - rewrite Hpos; destruct s; split; reflexivity.
Qed.

(** *** The digits [toFixed] writes, and the number they write *)

Lemma digits_value_from (digits : list ascii) (acc : N) :
  fold_left (fun acc c => (10 * acc + digit_value c)%N) digits acc
  = (acc * 10 ^ N.of_nat (length digits) + digits_value digits)%N.
Proof.
  revert acc; induction digits as [|c digits IH]; intros acc.
  - unfold digits_value; simpl; lia.
  - unfold digits_value; cbn [fold_left].
    rewrite (IH (10 * acc + digit_value c)%N), (IH (10 * 0 + digit_value c)%N).
    simpl length; rewrite Nat2N.inj_succ, N.pow_succ_r'; lia.
Qed.

Lemma digits_value_app (a b : list ascii) :
  digits_value (a ++ b)
  = (digits_value a * 10 ^ N.of_nat (length b) + digits_value b)%N.
Proof.
  unfold digits_value at 1; rewrite fold_left_app.
  apply digits_value_from.
Qed.

Lemma digits_value_zeros (k : nat) : digits_value (repeat "0"%char k) = 0%N.
Proof.
  induction k as [|k IH]; [reflexivity|].
  change (repeat "0"%char (S k)) with (["0"%char] ++ repeat "0"%char k).
  rewrite digits_value_app, IH; reflexivity.
Qed.

Lemma uint_value_from (d : Decimal.uint) (acc : positive) :
  fold_left (fun acc c => (10 * acc + digit_value c)%N)
            (list_ascii_of_string (NilEmpty.string_of_uint d)) (Npos acc)
  = Npos (Pos.of_uint_acc d acc).
Proof.
  revert acc; induction d as [|d IH|d IH|d IH|d IH|d IH|d IH|d IH|d IH|d IH|d IH];
    intros acc; [reflexivity|..];
    cbn [NilEmpty.string_of_uint list_ascii_of_string fold_left Pos.of_uint_acc];
    rewrite <- IH; f_equal;
    match goal with
    | |- context [digit_value ?c] =>
      let v := eval vm_compute in (digit_value c) in
      change (digit_value c) with v
    end; lia.
Qed.

Lemma uint_value (d : Decimal.uint) :
  digits_value (list_ascii_of_string (NilEmpty.string_of_uint d)) = N.of_uint d.
Proof.
  unfold digits_value, N.of_uint.
  induction d as [|d IH|d IH|d IH|d IH|d IH|d IH|d IH|d IH|d IH|d IH];
    [reflexivity | exact IH | ..];
    cbn [NilEmpty.string_of_uint list_ascii_of_string fold_left Pos.of_uint];
    rewrite <- uint_value_from; reflexivity.
Qed.

(** The digits of [n] write [n]. *)
Lemma decimal_digits_value (n : N) : digits_value (decimal_digits n) = n.
Proof.
  unfold decimal_digits.
  rewrite <- (DecimalN.Unsigned.of_to n) at 2.
  destruct (N.to_uint n); rewrite <- uint_value; reflexivity.
Qed.

(** They do not start with a zero, unless they are the one digit 0. *)
Lemma decimal_digits_head (n : N) :
  decimal_digits n = ["0"%char]
  \/ exists c rest, decimal_digits n = c :: rest /\ c <> "0"%char.
Proof.
  unfold decimal_digits.
  assert (Hnorm : Decimal.unorm (N.to_uint n) = N.to_uint n).
  { rewrite <- DecimalN.Unsigned.to_of, DecimalN.Unsigned.of_to; reflexivity. }
  destruct (N.to_uint n) as [|d|d|d|d|d|d|d|d|d|d] eqn:E;
    [left; reflexivity | |
     right; eexists; eexists; split; [reflexivity | discriminate] ..].
  left.
  destruct (Decimal.uint_eq_dec (Decimal.nzhead (Decimal.D0 d)) Decimal.Nil)
    as [Hnil | Hnn].
  - apply unorm_0 in Hnil; rewrite Hnorm in Hnil.
    injection Hnil as ->; reflexivity.
  - rewrite (unorm_nzhead _ Hnn) in Hnorm.
    exfalso; exact (nzhead_nonzero _ _ Hnorm).
Qed.

(** With [f > 0] decimals asked for, [place_point] splits the digits of
    [n], padded with zeros as needed, before the last [f]. *)
Lemma place_point_writes (n : N) (f : nat) :
  (0 < f)%nat ->
  exists int_part decimals,
    place_point n f = int_part ++ "."%char :: decimals /\
    Forall is_digit int_part /\ Forall is_digit decimals /\
    length decimals = f /\
    (int_part = ["0"%char]
     \/ exists c rest, int_part = c :: rest /\ c <> "0"%char) /\
    (digits_value int_part * 10 ^ N.of_nat f + digits_value decimals)%N = n.
Proof.
  intros Hf; unfold place_point.
  destruct f as [|f]; [lia|].
  pose proof (decimal_digits_digits n) as Hdig.
  pose proof (decimal_digits_nonempty n) as Hlen.
  pose proof (decimal_digits_value n) as Hval.
  pose proof (decimal_digits_head n) as Hhead.
  set (m0 := decimal_digits n) in *.
  set (m := if (length m0 <=? S f)%nat
            then repeat "0"%char (S f + 1 - length m0) ++ m0 else m0).
  assert (Hm : Forall is_digit m /\ (S f < length m)%nat /\ digits_value m = n /\
               (firstn (length m - S f) m = ["0"%char]
                \/ exists c rest, firstn (length m - S f) m = c :: rest
                                  /\ c <> "0"%char)).
  { unfold m; destruct (length m0 <=? S f)%nat eqn:Hk.
    - apply Nat.leb_le in Hk; repeat split.
      + apply Forall_app; split; [|exact Hdig].
        apply Forall_forall; intros c Hc; apply repeat_spec in Hc; subst c.
        vm_compute; lia.
      + rewrite length_app, repeat_length; lia.
      + rewrite digits_value_app, digits_value_zeros; exact Hval.
      + left.
        rewrite length_app, repeat_length.
        replace (S f + 1 - length m0 + length m0 - S f)%nat with 1%nat by lia.
        replace (S f + 1 - length m0)%nat with (S (S f - length m0)) by lia.
        reflexivity.
    - apply Nat.leb_gt in Hk; repeat split; try assumption.
      destruct Hhead as [E0 | (c & rest & Ec & Hc)].
      + rewrite E0 in Hk; simpl in Hk; lia.
      + right; rewrite Ec.
        replace (length (c :: rest) - S f)%nat
          with (S (length rest - S f)) by (rewrite Ec in Hk; simpl in *; lia).
        eexists; eexists; split; [reflexivity | exact Hc]. }
  destruct Hm as (Hmd & Hml & Hmv & Hmh).
  exists (firstn (length m - S f) m), (skipn (length m - S f) m).
  assert (Hsk : length (skipn (length m - S f) m) = S f)
    by (rewrite length_skipn; lia).
  rewrite <- (firstn_skipn (length m - S f) m) in Hmd, Hmv.
  apply Forall_app in Hmd; destruct Hmd as [Hi Hd].
  rewrite digits_value_app, Hsk in Hmv.
  repeat split; assumption.
Qed.

(** The integer [toFixed] takes is the nearest one. *)
Lemma nearest_scaled_nearest (s : bool) (m : positive) (e : Z) (f : nat) :
  nearest_to_scaled (S754_finite s m e) f (Z.of_N (nearest_scaled m e f)).
Proof.
  unfold nearest_to_scaled, nearest_scaled.
  assert (H10 : (0 < 10 ^ Z.of_nat f)%Z) by (apply Z.pow_pos_nonneg; lia).
  destruct e as [|p|k].
  - rewrite Z2N.id by lia; lia.
  - assert (0 < 2 ^ Zpos p)%Z by (apply Z.pow_pos_nonneg; lia).
    rewrite Z2N.id by nia; lia.
  - set (scaled := (Zpos m * 10 ^ Z.of_nat f)%Z).
    assert (Hk : (0 < 2 ^ Zpos k)%Z) by (apply Z.pow_pos_nonneg; lia).
    assert (Hs : (0 < scaled)%Z) by (unfold scaled; nia).
    replace (2 ^ (Zpos k + 1))%Z with (2 * 2 ^ Zpos k)%Z
      by (rewrite Z.pow_add_r by lia; lia).
    pose proof (Z.div_mod (2 * scaled + 2 ^ Zpos k) (2 * 2 ^ Zpos k) ltac:(lia)) as Hdm.
    pose proof (Z.mod_pos_bound (2 * scaled + 2 ^ Zpos k) (2 * 2 ^ Zpos k)
                                ltac:(lia)) as Hmod.
    assert (Hq : (0 <= (2 * scaled + 2 ^ Zpos k) / (2 * 2 ^ Zpos k))%Z)
      by (apply Z.div_pos; lia).
    rewrite Z2N.id by exact Hq.
    lia.
Qed.

Lemma magnitude_digits_fixed_point (x : binary64) (f : nat) :
  (0 < f)%nat -> fixed_point x f (magnitude_digits x f).
Proof.
  intros Hf; unfold fixed_point, magnitude_digits.
  destruct x as [s | s | | s m e];
    try (destruct (place_point_writes 0 f Hf) as (a & b & E & Ha & Hb & Hl & Hh & Hv);
         exists a, b; rewrite Hv; repeat split; assumption).
  destruct (place_point_writes (nearest_scaled m e f) f Hf)
    as (a & b & E & Ha & Hb & Hl & Hh & Hv).
  exists a, b; rewrite Hv; repeat split; try assumption.
  apply nearest_scaled_nearest.
Qed.

(** C8.  For a finite slope and intercept below 10^21 in magnitude the
    equation is ["y = "], the sign of the slope, ['+'] or ['-'], its
    magnitude to 4 decimals, ["x "], and the intercept to 2 decimals,
    written ["+ "] and its magnitude when it is not negative and [" -"]
    and its magnitude when it is; each magnitude being the digits of the
    nearest integer to the number times 10^4, or 10^2, with the point
    before the last 4, or 2. *)
Theorem equation_spec (slope intercept : binary64) :
  positional slope -> positional intercept ->
  exists slope_text intercept_text : list ascii,
    fixed_point slope 4 slope_text /\
    fixed_point intercept 2 intercept_text /\
    formatRegressionEquation slope intercept =
    ("y = " ++ (if SFltb slope (F_of_Z 0) then "-" else "+")
     ++ string_of_list_ascii slope_text
     ++ "x " ++ (if SFltb intercept (F_of_Z 0) then " -" else "+ ")
     ++ string_of_list_ascii intercept_text)%string.
Proof.
  intros Hs Hi.
  destruct (toFixed_positional slope 4 Hs) as [Hsg Hsf].
  destruct (toFixed_positional intercept 2 Hi) as [Hig Hif].
  exists (magnitude_digits slope 4), (magnitude_digits intercept 2).
  split; [apply magnitude_digits_fixed_point; lia|].
  split; [apply magnitude_digits_fixed_point; lia|].
  unfold formatRegressionEquation.
  rewrite Hsg, Hsf, Hig, Hif.
  destruct (SFltb slope (F_of_Z 0)), (SFltb intercept (F_of_Z 0)); reflexivity.
Qed.

Lemma equation_spec_witness :
  exists slope_text intercept_text : list ascii,
    fixed_point (F_of_Z (-3)) 4 slope_text /\
    fixed_point (F_of_Z 25) 2 intercept_text /\
    formatRegressionEquation (F_of_Z (-3)) (F_of_Z 25) =
    ("y = -" ++ string_of_list_ascii slope_text
     ++ "x + " ++ string_of_list_ascii intercept_text)%string.
Proof.
  apply (equation_spec (F_of_Z (-3)) (F_of_Z 25)); vm_compute; reflexivity.
Defined.


End Float64Facts.

(** * Further properties of the engine *)

(** ** For any arithmetic *)

Section Shape.
Context {T : Type} `{Number T}.
Local Open Scope num_scope.

(** X1.  [calculateStandardDeviation] throws, and then its invalid-input error,
    exactly when its two arrays differ in length or are empty, and returns
    otherwise. *)
Theorem standard_deviation_error_handling (actualValues predictedValues : list T) :
  (calculateStandardDeviation actualValues predictedValues = Throw InvalidInput
   <-> (length actualValues <> length predictedValues
        \/ length actualValues = 0)%nat) /\
  ((exists sd, calculateStandardDeviation actualValues predictedValues = Ok sd)
   <-> (length actualValues = length predictedValues
        /\ length actualValues <> 0)%nat).
Proof.
  destruct (Nat.eq_dec (length actualValues) (length predictedValues)) as [Heq|Hneq].
  - destruct actualValues as [|a actual].
    + rewrite calculateStandardDeviation_throws by (left; reflexivity).
      split; split; try (intros [sd Hsd]; discriminate); simpl; intuition.
    + rewrite calculateStandardDeviation_returns by (try discriminate; exact Heq).
      split; split; try discriminate; simpl.
      * intros [Hn|Hz]; [contradiction | discriminate].
      * intros _; split; [exact Heq | discriminate].
      * intros _; eexists; reflexivity.
  - rewrite calculateStandardDeviation_throws by (right; exact Hneq).
    split; split; try (intros [sd Hsd]; discriminate); intuition.
Qed.

(** X2.  On two prices or more the result carries the fit of the prices against
    their indices, its three series have one entry per price, and the
    latest values the caller reads at [length - 1] of each series are the
    ones the signal and the width were computed from. *)
Theorem result_series_aligned (prices : list T) (stdDevMultiplier : T) :
  (2 <= length prices)%nat ->
  exists r,
    calculateRegressionChannel prices stdDevMultiplier = Ok r /\
    calculateLinearRegression (indices (length prices)) prices = Ok (regression r) /\
    calculateStandardDeviation prices (middleLine r) = Ok (standardDeviation r) /\
    middleLine r = predictions (regression r) /\
    length (upperBand r) = length prices /\
    length (lowerBand r) = length prices /\
    length (middleLine r) = length prices /\
    currentPrice r = get prices (length prices - 1) /\
    predictedPrice r = get (middleLine r) (length (middleLine r) - 1) /\
    channelWidth r = get (upperBand r) (length (upperBand r) - 1)
                     - get (lowerBand r) (length (lowerBand r) - 1) /\
    (signal r, signalStrength r) =
      generateSignal (currentPrice r) (predictedPrice r)
                     (get (upperBand r) (length (upperBand r) - 1))
                     (get (lowerBand r) (length (lowerBand r) - 1)).
Proof.
  intros Hlen.
  destruct (calculateRegressionChannel_returns prices stdDevMultiplier Hlen)
    as (reg & sd & Hreg & Hsd & Hres).
  cbv zeta in Hres.
  destruct (calculateLinearRegression_returns (indices (length prices)) prices)
    as (reg' & Hreg' & Hpred).
  { intros E; apply (f_equal (@length T)) in E; rewrite indices_length in E;
      simpl in E; lia. }
  { apply indices_length. }
  rewrite Hreg in Hreg'; injection Hreg' as <-.
  assert (Hplen : length (predictions reg) = length prices).
  { rewrite Hpred, length_map, indices_length; reflexivity. }
  eexists; split; [exact Hres|].
  cbn [regression middleLine standardDeviation upperBand lowerBand currentPrice
       predictedPrice channelWidth signal signalStrength].
  unfold calculateChannelBands; cbn [fst snd].
  rewrite !length_map, Hplen.
  repeat split; try assumption; try reflexivity.
  symmetry; apply surjective_pairing.
Qed.

End Shape.


(** ** On IEEE 754 doubles *)

Module Float64Further.
Import Float64.

(** A finite double less itself is +0. *)
Lemma sub_self (x : binary64) : finite x -> sub x x = S754_zero false.
Proof.
  destruct x as [s | s | | s m e]; simpl; intros Hx; try contradiction.
  - destruct s; reflexivity.
  - unfold SFsub; cbv zeta.
    rewrite Z.sub_diag; reflexivity.
Qed.

(** X16.  When the two band values differ by a zero, [generateSignal] divides by
    zero: a price difference of zero, or NaN, gives HOLD with strength NaN,
    and any other difference gives BUY or SELL by its sign, with strength
    100. *)
Theorem flat_channel_signal (currentPrice predictedPrice upper lower : binary64)
    (sw : bool) :
  sub upper lower = S754_zero sw ->
  generateSignal currentPrice predictedPrice upper lower =
  match sub currentPrice predictedPrice with
  | S754_zero _ | S754_nan => (HOLD, S754_nan)
  | S754_finite s _ _ | S754_infinity s =>
    (if xorb s sw then BUY else SELL, F_of_Z 100)
  end.
Proof.
  intros Hw; unfold generateSignal; rewrite Hw.
  destruct (sub currentPrice predictedPrice) as [s | s | | s m e];
    destruct sw; try destruct s; reflexivity.
Qed.

Lemma flat_channel_signal_witness :
  generateSignal (F_of_Z 12) (F_of_Z 10) (F_of_Z 10) (F_of_Z 10)
  = (SELL, F_of_Z 100).
Proof.
  exact (flat_channel_signal (F_of_Z 12) (F_of_Z 10) (F_of_Z 10) (F_of_Z 10)
                             false eq_refl).
Defined.

(** X17.  On a channel without width, a price that equals the predicted price
    gets HOLD with strength NaN, whatever the finite values are. *)
Theorem on_line_flat_channel_is_NaN (price band : binary64) :
  finite price -> finite band ->
  generateSignal price price band band = (HOLD, S754_nan).
Proof.
  intros Hp Hb.
  unfold generateSignal.
  rewrite (sub_self band Hb), (sub_self price Hp); reflexivity.
Qed.

Lemma on_line_flat_channel_is_NaN_witness :
  generateSignal F10 F10 F10 F10 = (HOLD, S754_nan).
Proof.
  apply (on_line_flat_channel_is_NaN F10 F10); exact I.
Defined.

End Float64Further.

(** * The loops as sums *)

Section Accumulators.
Context {T : Type} `{Number T}.
Local Open Scope num_scope.

Lemma sq_diff_fold (actual predicted : list T) :
  length actual = length predicted ->
  forall acc,
    fold_left (sq_diff_step actual predicted) (seq 0 (length actual)) acc
    = fold_left add (squared_differences actual predicted) acc.
Proof.
  revert predicted; induction actual as [|a actual IH];
    intros [|p predicted] Hlen acc; try discriminate; [reflexivity|].
  simpl length; simpl seq; simpl fold_left.
  rewrite (fold_left_seq_S _ (sq_diff_step actual predicted))
    by (intros s i; reflexivity).
  apply IH; simpl in Hlen; lia.
Qed.

(** The loop of [calculateStandardDeviation] adds up the squared
    differences in index order. *)
Lemma sq_diff_loop_Sum (actual predicted : list T) :
  length actual = length predicted ->
  sq_diff_loop actual predicted (length actual)
  = Sum (squared_differences actual predicted).
Proof. intros Hlen; apply sq_diff_fold; exact Hlen. Qed.

Lemma sums_fold (xs ys : list T) :
  length xs = length ys ->
  forall s,
    fold_left (sums_step xs ys) (seq 0 (length xs)) s
    = {| sumX := fold_left add xs (sumX s);
         sumY := fold_left add ys (sumY s);
         sumXY := fold_left add (products xs ys) (sumXY s);
         sumX2 := fold_left add (products xs xs) (sumX2 s);
         sumY2 := fold_left add (products ys ys) (sumY2 s) |}.
Proof.
  revert ys; induction xs as [|x xs IH]; intros [|y ys] Hlen s; try discriminate.
  - destruct s; reflexivity.
  - simpl length; simpl seq; simpl fold_left.
    rewrite (fold_left_seq_S _ (sums_step xs ys)) by (intros s' i; reflexivity).
    rewrite IH by (simpl in Hlen; lia); reflexivity.
Qed.

(** The first loop of [calculateLinearRegression] adds up the values and
    their products in index order. *)
Lemma sums_loop_Sum (xs ys : list T) :
  length xs = length ys ->
  sums_loop xs ys (length xs)
  = {| sumX := Sum xs; sumY := Sum ys; sumXY := Sum (products xs ys);
       sumX2 := Sum (products xs xs); sumY2 := Sum (products ys ys) |}.
Proof. intros Hlen; apply (sums_fold xs ys Hlen sums0). Qed.

(** The line [calculateLinearRegression] returns. *)
Lemma calculateLinearRegression_line (xs ys : list T) :
  xs <> [] -> length xs = length ys ->
  let n := of_nat (length xs) in
  let m := (n * Sum (products xs ys) - Sum xs * Sum ys)
           / (n * Sum (products xs xs) - Sum xs * Sum xs) in
  let b := (Sum ys - m * Sum xs) / n in
  exists r,
    calculateLinearRegression xs ys = Ok r /\
    slope r = m /\ intercept r = b /\
    predictions r = map (fun x => m * x + b) xs.
Proof.
  intros Hne Hlen; unfold calculateLinearRegression.
  rewrite guard_false by assumption.
  rewrite (sums_loop_Sum xs ys Hlen); cbn [sumX sumY sumXY sumX2 sumY2].
  destruct (ss_loop _ _ _ _) as [ssTotal ssResidual].
  eexists; repeat split; reflexivity.
Qed.

Lemma get_map_indices (f : T -> T) (n i : nat) :
  (i < n)%nat -> get (map f (indices n)) i = f (of_nat i).
Proof.
  intros Hi; unfold get.
  rewrite nth_indep with (d' := f (of_nat 0))
    by (rewrite length_map, indices_length; exact Hi).
  rewrite (map_nth f); f_equal.
  unfold indices.
  rewrite (map_nth of_nat), seq_nth by exact Hi; reflexivity.
Qed.


End Accumulators.


(** * The claims on IEEE 754 doubles *)

Module Doubles.
Import Float64.

(** ** Comparisons *)



(** ** generateSignal *)



(** ** Rounding

    What is needed of [binary_round_aux]: the sign of its result, and that
    a positive integer stays positive. *)

Lemma binary_round_aux_cases (s : bool) (m e : Z) (l : location) :
  let r := binary_round_aux prec emax s m e l in
  r = S754_zero s \/ r = S754_infinity s \/ r = S754_nan \/
  exists q e', r = S754_finite s q e'.
Proof.
  cbv zeta; unfold binary_round_aux.
  destruct (shr_fexp prec emax m e l) as [mrs' e'].
  destruct (shr_fexp prec emax _ e' loc_Exact) as [mrs'' e''].
  destruct (shr_m mrs'') as [|q|q]; auto.
  destruct (Z.leb e'' (emax - prec)); eauto 6.
Qed.

Lemma iter_pos_nat (A : Type) (f : A -> A) (p : positive) (x : A) :
  iter_pos f p x = Nat.iter (Pos.to_nat p) f x.
Proof.
  revert x; induction p as [p IH | p IH |]; intros x; simpl iter_pos.
  - rewrite !IH, Pos2Nat.inj_xI.
    replace (S (2 * Pos.to_nat p)) with (Pos.to_nat p + (Pos.to_nat p + 1))%nat by lia.
    rewrite !Nat.iter_add; simpl; reflexivity.
  - rewrite !IH, Pos2Nat.inj_xO.
    replace (2 * Pos.to_nat p)%nat with (Pos.to_nat p + Pos.to_nat p)%nat by lia.
    rewrite Nat.iter_add; reflexivity.
  - reflexivity.
Qed.

Lemma shr_1_m (mrs : shr_record) :
  (0 <= shr_m mrs)%Z -> shr_m (shr_1 mrs) = (shr_m mrs / 2)%Z.
Proof.
  destruct mrs as [m r s]; simpl; intros Hm.
  destruct m as [|[p|p|]|p]; try lia; simpl shr_m.
  - reflexivity.
  - apply Z.div_unique with (r := 1%Z); lia.
  - apply Z.div_unique with (r := 0%Z); lia.
  - reflexivity.
Qed.

Lemma shr_iter_m (k : nat) (mrs : shr_record) :
  (0 <= shr_m mrs)%Z ->
  shr_m (Nat.iter k shr_1 mrs) = (shr_m mrs / 2 ^ Z.of_nat k)%Z.
Proof.
  intros Hm; induction k as [|k IH].
  - simpl; rewrite Z.div_1_r; reflexivity.
  - simpl Nat.iter; rewrite shr_1_m.
    + rewrite IH, Nat2Z.inj_succ, Z.pow_succ_r by lia.
      rewrite Z.div_div by lia.
      f_equal; lia.
    + rewrite IH; apply Z.div_pos; lia.
Qed.

(** What [shr] leaves of a mantissa that is not negative. *)
Lemma shr_m_spec (mrs : shr_record) (e n : Z) :
  (0 <= shr_m mrs)%Z ->
  shr_m (fst (shr mrs e n)) = (shr_m mrs / 2 ^ Z.max 0 n)%Z.
Proof.
  intros Hm; unfold shr.
  destruct n as [|p|p]; simpl fst.
  - rewrite Z.div_1_r; reflexivity.
  - rewrite iter_pos_nat, shr_iter_m by exact Hm.
    rewrite positive_nat_Z; f_equal; f_equal; lia.
  - rewrite Z.div_1_r; reflexivity.
Qed.

Lemma digits2_pos_bounds (p : positive) :
  (2 ^ (Zpos (digits2_pos p) - 1) <= Zpos p < 2 ^ Zpos (digits2_pos p))%Z.
Proof.
  induction p as [p IH | p IH |]; simpl digits2_pos.
  - rewrite Pos2Z.inj_succ.
    replace (Z.succ (Zpos (digits2_pos p)) - 1)%Z
      with (Z.succ (Zpos (digits2_pos p) - 1)) by lia.
    rewrite !Z.pow_succ_r by lia; lia.
  - rewrite Pos2Z.inj_succ.
    replace (Z.succ (Zpos (digits2_pos p)) - 1)%Z
      with (Z.succ (Zpos (digits2_pos p) - 1)) by lia.
    rewrite !Z.pow_succ_r by lia; lia.
  - simpl; lia.
Qed.


Lemma shr_record_of_loc_m (m : Z) (l : location) :
  shr_m (shr_record_of_loc m l) = m.
Proof. destruct l as [|[| |]]; reflexivity. Qed.

Lemma shr_exponent (mrs : shr_record) (e n : Z) : (e <= snd (shr mrs e n))%Z.
Proof. unfold shr; destruct n; simpl; lia. Qed.

(** Above the subnormal range a positive mantissa is shifted by fewer
    places than it has digits, and stays positive. *)
Lemma shr_fexp_positive (q : positive) (e : Z) (l : location) :
  (-1020 <= e)%Z ->
  (exists q', shr_m (fst (shr_fexp prec emax (Zpos q) e l)) = Zpos q') /\
  (e <= snd (shr_fexp prec emax (Zpos q) e l))%Z.
Proof.
  intros He; unfold shr_fexp.
  split; [|apply shr_exponent].
  rewrite shr_m_spec by (rewrite shr_record_of_loc_m; lia).
  rewrite shr_record_of_loc_m.
  pose proof (digits2_pos_bounds q) as [Hlow _].
  simpl Zdigits2.
  set (d := Zpos (digits2_pos q)) in *.
  assert (Hd : (1 <= d)%Z) by (unfold d; lia).
  assert (Hn : (Z.max 0 (fexp prec emax (d + e) - e) <= d - 1)%Z).
  { unfold fexp, emin, prec, emax; lia. }
  set (n := Z.max 0 (fexp prec emax (d + e) - e)) in *.
  assert (Hpow : (2 ^ n <= 2 ^ (d - 1))%Z) by (apply Z.pow_le_mono_r; lia).
  assert (Hq : (0 < Zpos q / 2 ^ n)%Z).
  { apply Z.div_str_pos; split; [apply Z.pow_pos_nonneg; lia | lia]. }
  destruct (Zpos q / 2 ^ n)%Z as [|q'|q'] eqn:E; try lia.
  exists q'; reflexivity.
Qed.

Lemma round_nearest_even_positive (q : positive) (l : location) :
  exists q', round_nearest_even (Zpos q) l = Zpos q'.
Proof.
  destruct l as [|[| |]]; simpl; try (eexists; reflexivity).
  destruct q; eexists; reflexivity.
Qed.

(** Above the subnormal range a positive mantissa rounds to a positive
    number or overflows. *)
Lemma binary_round_aux_positive (s : bool) (q : positive) (e : Z) (l : location) :
  (-1020 <= e)%Z ->
  (exists q' e', binary_round_aux prec emax s (Zpos q) e l = S754_finite s q' e') \/
  binary_round_aux prec emax s (Zpos q) e l = S754_infinity s.
Proof.
  intros He; unfold binary_round_aux.
  destruct (shr_fexp_positive q e l He) as [[q1 Hq1] He1].
  destruct (shr_fexp prec emax (Zpos q) e l) as [mrs' e'].
  simpl in Hq1, He1; rewrite Hq1.
  destruct (round_nearest_even_positive q1 (loc_of_shr_record mrs')) as [q2 Hq2].
  rewrite Hq2.
  destruct (shr_fexp_positive q2 e' loc_Exact ltac:(lia)) as [[q3 Hq3] _].
  destruct (shr_fexp prec emax (Zpos q2) e' loc_Exact) as [mrs'' e''].
  simpl in Hq3; rewrite Hq3.
  destruct (Z.leb e'' (emax - prec)); [left; eauto | right; reflexivity].
Qed.

(** The double of a positive integer is a positive number or +Infinity,
    never zero and never NaN. *)
Lemma F_of_Z_positive (p : positive) :
  (exists m e, F_of_Z (Zpos p) = S754_finite false m e) \/
  F_of_Z (Zpos p) = S754_infinity false.
Proof.
  unfold F_of_Z, binary_normalize, binary_round.
  assert (Halign : forall mz ez,
             shl_align p 0 (fexp prec emax (Zpos (digits2_pos p) + 0)) = (mz, ez) ->
             (-1020 <= ez)%Z).
  { intros mz ez; unfold shl_align.
    destruct (fexp prec emax (Zpos (digits2_pos p) + 0) - 0)%Z eqn:E;
      intros H; injection H as <- <-; try lia.
    unfold fexp, emin, prec, emax in *; lia. }
  destruct (shl_align p 0 _) as [mz ez] eqn:E.
  apply binary_round_aux_positive, (Halign mz ez eq_refl).
Qed.

Lemma of_nat_positive (n : nat) :
  (1 <= n)%nat ->
  (exists m e, of_nat n = S754_finite false m e) \/ of_nat n = S754_infinity false.
Proof.
  intros Hn; unfold of_nat.
  change (@of_Z binary64 _) with F_of_Z.
  destruct (Z.of_nat n) as [|p|p] eqn:E; try lia.
  apply F_of_Z_positive.
Qed.


(** ** calculateStandardDeviation *)

(** The square root is NaN or not negative. *)
Lemma sqrt_sign (x : binary64) :
  Math_sqrt x = S754_nan \/ leb (of_Z 0) (Math_sqrt x) = true.
Proof.
  change (SFsqrt prec emax x = S754_nan
          \/ SFleb (S754_zero false) (SFsqrt prec emax x) = true).
  destruct x as [s | [|] | | [|] m e]; simpl; auto.
  destruct (SFsqrt_core_binary prec emax (Zpos m) e) as [[mz ez] lz].
  destruct (binary_round_aux_cases false mz ez lz) as [E | [E | [E | (q & e' & E)]]];
    rewrite E; auto.
Qed.

(** Two finite doubles that compare equal differ by a zero. *)
Lemma eqb_sub_zero (a p : binary64) :
  finite a -> eqb a p = true -> exists s, sub a p = S754_zero s.
Proof.
  change (finite a -> SFeqb a p = true -> exists s, SFsub prec emax a p = S754_zero s).
  intros Ha; destruct a as [sa | sa | | sa ma ea]; simpl in Ha; try contradiction;
    clear Ha.
  - destruct p as [sp | sp | | sp mp ep];
      try (destruct sa, sp; simpl; discriminate); try discriminate.
    intros _; destruct sa, sp; eexists; reflexivity.
  - destruct p as [sp | sp | | sp mp ep];
      try (destruct sa, sp; simpl; discriminate); try discriminate.
    unfold SFeqb, SFcompare; intros Heq.
    assert (E : sp = sa /\ ep = ea /\ mp = ma).
    { destruct sa, sp; try discriminate;
        destruct (Z.compare ea ep) eqn:He; try discriminate;
        apply Z.compare_eq in He;
        destruct (Pos.compare_cont Eq ma mp) eqn:Hm; try discriminate;
        apply Pos.compare_eq in Hm; subst; auto. }
    destruct E as (-> & -> & ->).
    exists false; apply (Float64Further.sub_self (S754_finite sa ma ea)); exact I.
Qed.

Lemma square_zero (s : bool) : mul (S754_zero s) (S754_zero s) = S754_zero false.
Proof. destruct s; reflexivity. Qed.

(** Adding up zeros from 0 gives +0. *)
Lemma Sum_zeros (terms : list binary64) :
  Forall (fun t => t = S754_zero false) terms -> Sum terms = S754_zero false.
Proof.
  unfold Sum; change (@of_Z binary64 _ 0%Z) with (S754_zero false).
  induction 1 as [|t terms Ht _ IH]; [reflexivity|].
  simpl fold_left; rewrite Ht; exact IH.
Qed.

(** +0 over a count of one or more is +0. *)
Lemma zero_over_count (n : nat) :
  (1 <= n)%nat -> div (S754_zero false) (of_nat n) = S754_zero false.
Proof.
  intros Hn.
  destruct (of_nat_positive n Hn) as [(m & e & E) | E]; rewrite E; reflexivity.
Qed.

(** C7.  On two arrays of one length, not empty,
    [calculateStandardDeviation] returns the root of the sum of the
    squared differences, added up in index order, over their number; the
    result is NaN or at least 0; and it is +0 when the arrays are finite
    and equal entry by entry. *)
Theorem standard_deviation_spec (actual predicted : list binary64) :
  actual <> [] -> length actual = length predicted ->
  exists sd,
    calculateStandardDeviation actual predicted = Ok sd /\
    sd = Math_sqrt (div (Sum (squared_differences actual predicted))
                        (of_nat (length actual))) /\
    (sd = S754_nan \/ leb (of_Z 0) sd = true) /\
    (Forall2 (fun a p => finite a /\ eqb a p = true) actual predicted ->
     sd = S754_zero false).
Proof.
  intros Hne Hlen.
  rewrite (calculateStandardDeviation_returns actual predicted Hne Hlen).
  rewrite (sq_diff_loop_Sum actual predicted Hlen).
  eexists; split; [reflexivity|].
  split; [reflexivity|].
  split; [apply sqrt_sign|].
  intros Heq.
  rewrite Sum_zeros.
  - rewrite zero_over_count; [reflexivity|].
    destruct actual; [congruence | simpl; lia].
  - unfold squared_differences.
    clear Hne Hlen; induction Heq as [|a p actual predicted [Ha Hap] _ IH];
      [constructor|].
    cbn [map combine fst snd]; constructor; [|exact IH].
    destruct (eqb_sub_zero a p Ha Hap) as [s Hs].
    rewrite Hs; apply square_zero.
Qed.

Lemma standard_deviation_spec_witness :
  exists sd,
    calculateStandardDeviation (map F_of_Z [3; 5]%Z) (map F_of_Z [3; 5]%Z) = Ok sd /\
    sd = Math_sqrt (div (Sum (squared_differences (map F_of_Z [3; 5]%Z)
                                                  (map F_of_Z [3; 5]%Z)))
                        (of_nat 2)) /\
    (sd = S754_nan \/ leb (of_Z 0) sd = true) /\
    (Forall2 (fun a p => finite a /\ eqb a p = true)
             (map F_of_Z [3; 5]%Z) (map F_of_Z [3; 5]%Z) ->
     sd = S754_zero false).
Proof.
  apply (standard_deviation_spec (map F_of_Z [3; 5]%Z) (map F_of_Z [3; 5]%Z)).
  - discriminate.
  - reflexivity.
Defined.

(** The deviation can be 0 between arrays that differ: the square of a
    small difference underflows.  And between equal arrays it is NaN when
    an entry is infinite. *)
Lemma standard_deviation_zero_not_equal :
  let tiny := S754_finite false 4503599627370496 (-652) in
  eqb tiny (F_of_Z 0) = false /\
  calculateStandardDeviation [tiny] [F_of_Z 0] = Ok (F_of_Z 0) /\
  calculateStandardDeviation [S754_infinity false] [S754_infinity false]
  = Ok S754_nan.
Proof. vm_compute; repeat split. Qed.


(** ** calculateLinearRegression *)

(** [x === x] holds of every double but NaN. *)
Lemma eqb_refl_iff (x : binary64) : eqb x x = true <-> x <> S754_nan.
Proof.
  change (SFeqb x x = true <-> x <> S754_nan).
  destruct x as [s | s | | s m e]; unfold SFeqb, SFcompare.
  - split; [discriminate | reflexivity].
  - destruct s; (split; [discriminate | reflexivity]).
  - split; [discriminate | congruence].
  - rewrite Z.compare_refl.
    change (Pos.compare_cont Eq m m) with (Pos.compare m m).
    rewrite Pos.compare_refl.
    destruct s; (split; [discriminate | reflexivity]).
Qed.

(** NaN in, NaN out. *)
Lemma NaN_left (x : binary64) :
  add S754_nan x = S754_nan /\ sub S754_nan x = S754_nan /\
  mul S754_nan x = S754_nan /\ div S754_nan x = S754_nan.
Proof. repeat split; reflexivity. Qed.

Lemma NaN_right (x : binary64) :
  add x S754_nan = S754_nan /\ sub x S754_nan = S754_nan /\
  mul x S754_nan = S754_nan /\ div x S754_nan = S754_nan.
Proof. destruct x; repeat split; reflexivity. Qed.

(** The slope of the fit of a single finite point is 0 over 0. *)
Lemma single_point_slope (y : binary64) :
  finite y ->
  let xs := indices 1 in
  div (sub (mul (of_nat 1) (Sum (products xs [y]))) (mul (Sum xs) (Sum [y])))
      (sub (mul (of_nat 1) (Sum (products xs xs))) (mul (Sum xs) (Sum xs)))
  = S754_nan.
Proof.
  destruct y as [s | s | | s m e]; simpl; intros Hy; try contradiction;
    destruct s; reflexivity.
Qed.


(** C5.  On the indices 0..n-1 and n values, n at least 1,
    [calculateLinearRegression] returns n predictions, the i-th being
    [slope * i + intercept], with [slope] and [intercept] the quotients of
    the sums added up in index order; the i-th prediction compares equal
    to [slope * i + intercept] unless it is NaN; and the fit of one finite
    point has a NaN slope, intercept and prediction. *)
Theorem fit_predicts_the_line (ys : list binary64) :
  ys <> [] ->
  let n := length ys in
  let xs : list binary64 := indices n in
  exists r,
    calculateLinearRegression xs ys = Ok r /\
    slope r = div (sub (mul (of_nat n) (Sum (products xs ys)))
                       (mul (Sum xs) (Sum ys)))
                  (sub (mul (of_nat n) (Sum (products xs xs)))
                       (mul (Sum xs) (Sum xs))) /\
    intercept r = div (sub (Sum ys) (mul (slope r) (Sum xs))) (of_nat n) /\
    length (predictions r) = n /\
    (forall i, (i < n)%nat ->
       get (predictions r) i = add (mul (slope r) (of_nat i)) (intercept r) /\
       (eqb (get (predictions r) i)
            (add (mul (slope r) (of_nat i)) (intercept r)) = true
        <-> get (predictions r) i <> S754_nan)) /\
    (n = 1%nat -> Forall finite ys ->
     slope r = S754_nan /\ intercept r = S754_nan /\ predictions r = [S754_nan]).
Proof.
  intros Hne n xs.
  assert (Hlen : length xs = length ys) by apply indices_length.
  assert (Hxs : xs <> []).
  { intros E; rewrite E in Hlen; destruct ys; [congruence | discriminate]. }
  destruct (calculateLinearRegression_line xs ys Hxs Hlen)
    as (r & Hr & Hm & Hb & Hp).
  cbv zeta in Hm, Hb, Hp.
  rewrite Hlen in Hm, Hb, Hp; fold n in Hm, Hb, Hp.
  rewrite <- Hm in Hb, Hp; rewrite <- Hb in Hp.
  exists r; split; [exact Hr|].
  split; [exact Hm|].
  split; [exact Hb|].
  split; [rewrite Hp, length_map; exact Hlen|].
  split.
  - intros i Hi.
    assert (E : get (predictions r) i = add (mul (slope r) (of_nat i)) (intercept r)).
    { rewrite Hp; unfold xs.
      apply (get_map_indices (fun x => add (mul (slope r) x) (intercept r)) n i Hi). }
    split; [exact E|].
    rewrite <- E; apply eqb_refl_iff.
  - intros Hn Hfin.
    destruct ys as [|y [|y' ys]]; try discriminate.
    apply Forall_inv in Hfin.
    assert (Hs : slope r = S754_nan).
    { rewrite Hm; apply (single_point_slope y Hfin). }
    assert (Hi : intercept r = S754_nan).
    { rewrite Hb, Hs.
      rewrite (proj1 (proj2 (proj2 (NaN_left _)))).
      rewrite (proj1 (proj2 (NaN_right _))).
      apply NaN_left. }
    repeat split; try assumption.
    rewrite Hp, Hs, Hi; reflexivity.
Qed.

Lemma fit_predicts_the_line_witness :
  exists r,
    calculateLinearRegression (indices 3) (map F_of_Z [2; 4; 9]%Z) = Ok r /\
    length (predictions r) = 3%nat /\
    get (predictions r) 2 = add (mul (slope r) (of_nat 2)) (intercept r).
Proof.
  destruct (fit_predicts_the_line (map F_of_Z [2; 4; 9]%Z) ltac:(discriminate))
    as (r & Hr & _ & _ & Hlen & Hget & _).
  exists r; split; [exact Hr | split; [exact Hlen|]].
  apply (Hget 2%nat); simpl; lia.
Defined.


(** ** Rounding is monotone *)































(** ** calculateChannelBands *)





(** ** The goodness of fit of a flat series *)

(** C3.  On ten prices that all are the double 0.1 the sum of the prices
    over their number is not 0.1, the total sum of squares is not 0, and
    [calculateLinearRegression] returns [rSquared = -14.3], neither 0
    nor in [0,1]. *)
Theorem flat_tenths_r_squared :
  let tenth := div (F_of_Z 1) (F_of_Z 10) in
  let ys := repeat tenth 10 in
  exists r,
    calculateLinearRegression (indices 10) ys = Ok r /\
    eqb (div (Sum ys) (of_nat 10)) tenth = false /\
    rSquared r = S754_finite true 8050184333924762 (-49) /\
    toFixed (rSquared r) 1 = "-14.3"%string /\
    SFltb (rSquared r) (F_of_Z 0) = true /\
    eqb (rSquared r) (F_of_Z 0) = false /\
    eqb (slope r) (F_of_Z 0) = false.
Proof. cbv zeta; eexists; split; [vm_compute; reflexivity | vm_compute; repeat split]. Qed.

(** On prices that are not all equal [rSquared] can be 0: the fit of
    3, 1, 1, 3 is flat. *)
Lemma r_squared_zero_not_constant :
  exists r,
    calculateLinearRegression (indices 4) (map F_of_Z [3; 1; 1; 3]%Z) = Ok r /\
    rSquared r = F_of_Z 0 /\
    eqb (F_of_Z 3) (F_of_Z 1) = false.
Proof. eexists; split; [vm_compute; reflexivity | vm_compute; repeat split]. Qed.

(** ** The distances to the bands *)




(** ** The range of the strength *)

(** C10.  Between the band values 5e-324, the least positive double, and 0
    the width is positive but half of it rounds to 0: for a price on the
    line the normalized position is 0/0, and [generateSignal] returns HOLD
    with strength NaN, which is not in (30, 100]. *)
Theorem tiny_channel_strength_is_NaN :
  let least := S754_finite false 1 (-1074) in
  let width := sub least (F_of_Z 0) in
  SFltb (F_of_Z 0) width = true /\
  div width (of_Z 2) = F_of_Z 0 /\
  generateSignal (F_of_Z 1) (F_of_Z 1) least (F_of_Z 0) = (HOLD, S754_nan) /\
  SFltb (F_of_Z 30) S754_nan = false /\
  leb S754_nan (F_of_Z 100) = false.
Proof. vm_compute; repeat split. Qed.


(** ** The series of the result *)

Lemma result_series_aligned_witness :
  exists r : RegressionChannelResult binary64,
    calculateRegressionChannel (map F_of_Z [3; 5; 4]%Z) (F_of_Z 2) = Ok r /\
    length (upperBand r) = 3%nat /\ length (lowerBand r) = 3%nat /\
    length (middleLine r) = 3%nat.
Proof.
  destruct (result_series_aligned (map F_of_Z [3; 5; 4]%Z) (F_of_Z 2))
    as (r & Hr & _ & _ & _ & Hu & Hl & Hm & _); [simpl; lia|].
  exists r; repeat split; assumption.
Defined.


End Doubles.
